(** * core-js-101, 05-objects-tasks.js: the CSS selector builder and the
      object helpers, embedded in Rocq.

    The builder is a mutable JavaScript object whose methods either return
    [this] or throw.  A method is modelled as a statement: a function from the
    builder's fields before the call to its fields after the call together
    with the way the call completed. *)

From Stdlib Require Import ZArith Floats.
From stdpp Require Import gmap strings list pretty.

Local Open Scope Z_scope.
#[local] Set Warnings "-register-all".

(** ** JavaScript pieces used by the source *)

(** A field that holds a string or was never assigned ([undefined]). *)
Definition undefined : option string := None.

(** [Array.prototype.indexOf] on an array of strings: the first index whose
    element is strictly equal to the argument, [-1] when there is none.  The
    argument may be [undefined], which no string equals. *)
Fixpoint indexOf_from (i : Z) (l : list string) (x : option string) : Z :=
  match l with
  | [] => -1
  | y :: l' => if bool_decide (x = Some y) then i else indexOf_from (i + 1) l' x
  end.

Definition indexOf (l : list string) (x : option string) : Z :=
  indexOf_from 0 l x.

(** Truthiness of [obj[key]] for an object whose own values are booleans; a
    key that is absent reads as [undefined], which is falsy. *)
Definition truthy (v : option bool) : bool := default false v.

(** ** class SelectorBuilder *)

(** The fields a method can change.  [current] is not assigned by the
    constructor, so it starts [undefined].  [occurences] is the object of
    flags, a map from type strings to booleans. *)
Record SelectorBuilder : Type := mkSelectorBuilder {
  selector : string;
  combinator : string;
  current : option string;
  occurences : gmap string bool
}.

(** The fields the constructor assigns and no method reassigns. *)
Definition order : list string :=
  ["element"; "id"; "class"; "attr"; "pseudo-class"; "pseudo-element"]%string.

Definition error1 : string :=
  "Selector parts should be arranged in the following order: element, id, class, attribute, pseudo-class, pseudo-element".

Definition error2 : string :=
  "Element, id and pseudo-element should not occur more then one time inside the selector".

(** [new SelectorBuilder()] *)
Definition new_SelectorBuilder : SelectorBuilder :=
  {| selector := "";
     combinator := "";
     current := undefined;
     occurences :=
       <["element" := false]> (<["id" := false]> (<["class" := false]>
       (<["attr" := false]> (<["pseudo-class" := false]>
       (<["pseudo-element" := false]> ∅))))) |}.

(** How a call completes: it returns ([this], for the chaining methods) or it
    throws [new Error(msg)]. *)
Inductive completion : Type :=
  | Normal
  | Throw (msg : string).

(** A statement run on [this]. *)
Definition stmt : Type := SelectorBuilder -> SelectorBuilder * completion.

Definition skip : stmt := fun this => (this, Normal).

Definition throw (msg : string) : stmt := fun this => (this, Throw msg).

Definition and_then (s1 s2 : stmt) : stmt := fun this =>
  match s1 this with
  | (this', Normal) => s2 this'
  | (this', Throw msg) => (this', Throw msg)
  end.

Definition cond (c : SelectorBuilder -> bool) (s1 s2 : stmt) : stmt :=
  fun this => if c this then s1 this else s2 this.

Definition assign (f : SelectorBuilder -> SelectorBuilder) : stmt :=
  fun this => (f this, Normal).

Declare Scope stmt_scope.
Delimit Scope stmt_scope with stmt.
Bind Scope stmt_scope with stmt.
Notation "s1 ;; s2" := (and_then s1 s2%stmt) : stmt_scope.
Notation "'If' c 'Then' s1 'Else' s2" := (cond c s1%stmt s2%stmt)
  (at level 60, c at level 9, s1 at level 9, s2 at level 9) : stmt_scope.
Notation "'If' c 'Then' s1" := (cond c s1%stmt skip)
  (at level 60, c at level 9, s1 at level 9) : stmt_scope.

(** Field assignments. *)
Definition set_selector (s : string) (this : SelectorBuilder) : SelectorBuilder :=
  {| selector := s; combinator := combinator this;
     current := current this; occurences := occurences this |}.

Definition set_combinator (c : string) (this : SelectorBuilder) : SelectorBuilder :=
  {| selector := selector this; combinator := c;
     current := current this; occurences := occurences this |}.

Definition set_current (t : string) (this : SelectorBuilder) : SelectorBuilder :=
  {| selector := selector this; combinator := combinator this;
     current := Some t; occurences := occurences this |}.

Definition set_occurence (t : string) (v : bool) (this : SelectorBuilder) : SelectorBuilder :=
  {| selector := selector this; combinator := combinator this;
     current := current this; occurences := <[t := v]> (occurences this) |}.

(** [this.selector += s] *)
Definition append_selector (s : string) (this : SelectorBuilder) : SelectorBuilder :=
  set_selector (selector this +:+ s) this.

Module Builder.

Definition displayOrderError : stmt := throw error1.

Definition displayUniqueError : stmt := throw error2.

(** [add(type, value)].  The test [this.occurences[type]] is read off the
    own flags: its result only matters for the three types of the inner
    test, which are own keys of [occurences]. *)
Definition add (type value : string) : stmt :=
 ((If (fun this => truthy (occurences this !! type))
   Then (If (fun _ => String.eqb type "element" || String.eqb type "id"
                      || String.eqb type "pseudo-element")
         Then displayUniqueError)) ;;
  (If (fun this => indexOf order (Some type) <? indexOf order (current this))
   Then displayOrderError) ;;
  assign (set_current type) ;;
  assign (set_occurence type true) ;;
  (if String.eqb type "id" then assign (fun this => append_selector ("#" +:+ value) this)
   else if String.eqb type "class" then assign (fun this => append_selector ("." +:+ value) this)
   else if String.eqb type "attr" then assign (fun this => append_selector ("[" +:+ value +:+ "]") this)
   else if String.eqb type "pseudo-class" then assign (fun this => append_selector (":" +:+ value) this)
   else if String.eqb type "pseudo-element" then assign (fun this => append_selector ("::" +:+ value) this)
   else assign (fun this => append_selector value this)))%stmt.

Definition element (value : string) : stmt := add "element" value.
Definition id (value : string) : stmt := add "id" value.
Definition class (value : string) : stmt := add "class" value.
Definition attr (value : string) : stmt := add "attr" value.
Definition pseudoClass (value : string) : stmt := add "pseudo-class" value.
Definition pseudoElement (value : string) : stmt := add "pseudo-element" value.

(** [stringify()] reads a field and changes nothing. *)
Definition stringify (this : SelectorBuilder) : string := selector this.

(** [combine(selector1, combinator, selector2)].  The two arguments are
    read through [stringify] only, after [this.combinator] is assigned and
    before [this.selector] is; so when one of them is [this] itself, what
    is read is still the text [this] had when the call started. *)
Definition combine (selector1 : SelectorBuilder) (combinator : string)
    (selector2 : SelectorBuilder) : stmt :=
 (assign (set_combinator combinator) ;;
  assign (set_selector
            (stringify selector1 +:+ " " +:+ combinator +:+ " " +:+ stringify selector2)))%stmt.

End Builder.

(** The facade object: every entry point makes a fresh builder and calls the
    method of the same name on it. *)
Module cssSelectorBuilder.

Definition element (value : string) := Builder.element value new_SelectorBuilder.
Definition id (value : string) := Builder.id value new_SelectorBuilder.
Definition class (value : string) := Builder.class value new_SelectorBuilder.
Definition attr (value : string) := Builder.attr value new_SelectorBuilder.
Definition pseudoClass (value : string) := Builder.pseudoClass value new_SelectorBuilder.
Definition pseudoElement (value : string) := Builder.pseudoElement value new_SelectorBuilder.
Definition combine (selector1 : SelectorBuilder) (combinator : string)
    (selector2 : SelectorBuilder) :=
  Builder.combine selector1 combinator selector2 new_SelectorBuilder.

End cssSelectorBuilder.

(** ** Sequences of chained calls *)

(** The six chaining methods as data, to quantify over calls. *)
Inductive part : Type :=
  | Element | Id | Class | Attr | PseudoClass | PseudoElement.

#[global] Instance part_eq_dec : EqDecision part.
Proof. solve_decision. Defined.

(** The type string each method hands to [add]. *)
Definition type_of (p : part) : string :=
  match p with
  | Element => "element"
  | Id => "id"
  | Class => "class"
  | Attr => "attr"
  | PseudoClass => "pseudo-class"
  | PseudoElement => "pseudo-element"
  end.

Definition call (p : part) (value : string) : stmt :=
  match p with
  | Element => Builder.element value
  | Id => Builder.id value
  | Class => Builder.class value
  | Attr => Builder.attr value
  | PseudoClass => Builder.pseudoClass value
  | PseudoElement => Builder.pseudoElement value
  end.

(** [b.m1(v1).m2(v2)...]: each method is called on what the previous one
    returned, which is the same object; a throw ends the chain. *)
Fixpoint chain (calls : list (part * string)) : stmt :=
  match calls with
  | [] => skip
  | (p, v) :: rest => and_then (call p v) (chain rest)
  end.

(** Position of a part's type in [this.order]. *)
Definition rank (p : part) : Z := indexOf order (Some (type_of p)).

(** The types singled out by the inner test of [add]. *)
Definition singleton (p : part) : bool :=
  match p with
  | Element | Id | PseudoElement => true
  | Class | Attr | PseudoClass => false
  end.

(** What [add] accepts after a part [prev]: a part further in the order, or
    the same part again unless it is one of the three singled out. *)
Definition step_ok (prev : option part) (p : part) : bool :=
  match prev with
  | None => true
  | Some q => (rank q <? rank p) || (bool_decide (q = p) && negb (singleton p))
  end.

Fixpoint chain_ok (prev : option part) (ps : list part) : bool :=
  match ps with
  | [] => true
  | p :: ps' => step_ok prev p && chain_ok (Some p) ps'
  end.

(** The flags and [current] of a builder agree with [prev] being the last
    part appended: only parts up to [prev] are flagged, and [prev] is. *)
Definition consistent (b : SelectorBuilder) (prev : option part) : Prop :=
  current b = type_of <$> prev
  /\ (forall p, truthy (occurences b !! type_of p) = true ->
        exists q, prev = Some q /\ rank p <= rank q)
  /\ (forall q, prev = Some q -> truthy (occurences b !! type_of q) = true).

(** Any method call that returns the builder: one of the six appends, or
    [combine] with its three arguments. *)
Inductive operation : Type :=
  | Append (p : part) (value : string)
  | Combine (selector1 : SelectorBuilder) (combinator : string)
      (selector2 : SelectorBuilder).

Definition perform (o : operation) : stmt :=
  match o with
  | Append p value => call p value
  | Combine selector1 combinator selector2 =>
      Builder.combine selector1 combinator selector2
  end.

Fixpoint perform_all (ops : list operation) : stmt :=
  match ops with
  | [] => skip
  | o :: rest => and_then (perform o) (perform_all rest)
  end.

(** The parts a list of operations appends, in order. *)
Fixpoint appended (ops : list operation) : list part :=
  match ops with
  | [] => []
  | Append p _ :: rest => p :: appended rest
  | Combine _ _ _ :: rest => appended rest
  end.

(** The part appended last once [ops] are done, [prev] being the last one
    before. *)
Fixpoint last_part (prev : option part) (ops : list operation) : option part :=
  match ops with
  | [] => prev
  | Append p _ :: rest => last_part (Some p) rest
  | Combine _ _ _ :: rest => last_part prev rest
  end.

(** The facade's six entry points, by part. *)
Definition facade (p : part) (value : string) : SelectorBuilder * completion :=
  match p with
  | Element => cssSelectorBuilder.element value
  | Id => cssSelectorBuilder.id value
  | Class => cssSelectorBuilder.class value
  | Attr => cssSelectorBuilder.attr value
  | PseudoClass => cssSelectorBuilder.pseudoClass value
  | PseudoElement => cssSelectorBuilder.pseudoElement value
  end.

(** ** The specification's wording, for comparison *)

(** Spec 4.1: the text each category contributes. *)
Definition spec_fragment (p : part) (value : string) : string :=
  match p with
  | Element => value
  | Id => "#" +:+ value
  | Class => "." +:+ value
  | Attr => "[" +:+ value +:+ "]"
  | PseudoClass => ":" +:+ value
  | PseudoElement => "::" +:+ value
  end.

(** Spec 3: the category order [element < id < class < attribute <
    pseudo-class < pseudo-element]. *)
Definition spec_position (p : part) : Z :=
  match p with
  | Element => 0
  | Id => 1
  | Class => 2
  | Attr => 3
  | PseudoClass => 4
  | PseudoElement => 5
  end.

(** Spec 3: "non-decreasing category order (ties allowed only for class and
    attribute, which may repeat)". *)
Definition spec_tie_allowed (p : part) : bool :=
  match p with
  | Class | Attr => true
  | _ => false
  end.

Definition spec_step_ok (prev : option part) (p : part) : bool :=
  match prev with
  | None => true
  | Some q => (spec_position q <? spec_position p)
              || (bool_decide (q = p) && spec_tie_allowed p)
  end.

Fixpoint spec_chain_ok (prev : option part) (ps : list part) : bool :=
  match ps with
  | [] => true
  | p :: ps' => spec_step_ok prev p && spec_chain_ok (Some p) ps'
  end.

(** Concatenation with no separator. *)
Definition concat_fragments (calls : list (part * string)) : string :=
  foldr (fun c acc => spec_fragment (fst c) (snd c) +:+ acc) "" calls.

(** ** Rectangle *)

(** [new Rectangle(width, height)]: the two number fields; JavaScript numbers
    are IEEE 754 doubles.  [getArea] is an arrow function closed over [this],
    so it reads the fields the object has when it is called. *)
Record Rectangle : Type := mkRectangle {
  width : float;
  height : float
}.

Definition new_Rectangle (width height : float) : Rectangle :=
  {| width := width; height := height |}.

Definition getArea (this : Rectangle) : float :=
  (width this * height this)%float.

(** ** getJSON and fromJSON

    Both are compositions of built-ins.  [JSON.stringify], [JSON.parse] and
    the bodies of setters are taken as parameters; [Object.create] and
    [Object.assign] are written out as ECMAScript defines them on ordinary
    objects, with strings as sequences of code units below 256. *)

(** The data [JSON.parse] returns.  An object lists its own properties in
    key order; all of them are enumerable, writable data properties. *)
Inductive value : Type :=
  | Null
  | Bool (b : bool)
  | Number (n : float)
  | Str (s : string)
  | Arr (elements : list value)
  | Obj (fields : list (string * value)).

Inductive exception : Type :=
  | SyntaxError
  | TypeError
  | Thrown (msg : string).

Inductive result (A : Type) : Type :=
  | Returns (a : A)
  | Raises (e : exception).

Arguments Returns {A} a.
Arguments Raises {A} e.

Section Objects.

(** Function objects are opaque. *)
Variable function : Type.

(** What [[Set]] looks at in a property found on the prototype chain: for a
    data property whether it is writable, for an accessor its setter (a
    function or [undefined]). *)
Inductive property : Type :=
  | DataProperty (writable : bool)
  | AccessorProperty (setter : option function).

(** The argument [proto]: [null], or an object with its own properties and
    its own prototype. *)
Inductive prototype : Type :=
  | null
  | proto_object (props : list (string * property)) (parent : prototype).

(** The object [fromJSON] builds: its prototype and its own properties, which
    [Object.assign] only ever creates as plain data properties. *)
Record object : Type := mkObject {
  prototype_of : prototype;
  own : list (string * value)
}.

(** What is not part of the source: the two [JSON] built-ins ([JSON.parse]
    answers [None] where it throws a SyntaxError) and the bodies of setters
    found on a prototype chain, run with the receiver as [this]. *)
Variable JSON_stringify : value -> string.
Variable JSON_parse : string -> option value.
Variable call_setter : function -> value -> object -> result object.

Fixpoint get_property {A : Type} (key : string) (props : list (string * A)) : option A :=
  match props with
  | [] => None
  | (k, a) :: rest => if String.eqb k key then Some a else get_property key rest
  end.

(** First property named [key] along the chain. *)
Fixpoint lookup_chain (key : string) (p : prototype) : option property :=
  match p with
  | null => None
  | proto_object props parent =>
      match get_property key props with
      | Some d => Some d
      | None => lookup_chain key parent
      end
  end.

(** Give the own property [key] the value [v]: in place when the object has
    it, as a new last property otherwise. *)
Fixpoint set_own (key : string) (v : value) (fields : list (string * value))
    : list (string * value) :=
  match fields with
  | [] => [(key, v)]
  | (k, w) :: rest =>
      if String.eqb k key then (k, v) :: rest else (k, w) :: set_own key v rest
  end.

(** [Object.create(proto)] *)
Definition Object_create (proto : prototype) : object :=
  {| prototype_of := proto; own := [] |}.

(** [target[key] = v] as [Object.assign] does it, for a target whose own
    properties are writable data properties.  An own property is updated;
    otherwise the first property of that name on the prototype chain
    decides: none or a writable data property lets a new own property be
    created, a setter is called instead, and a read-only data property or an
    accessor without setter makes [[Set]] answer [false], on which
    [Object.assign] throws a TypeError. *)
Definition Set_or_throw (target : object) (key : string) (v : value) : result object :=
  match get_property key (own target) with
  | Some _ =>
      Returns {| prototype_of := prototype_of target; own := set_own key v (own target) |}
  | None =>
      match lookup_chain key (prototype_of target) with
      | None | Some (DataProperty true) =>
          Returns {| prototype_of := prototype_of target; own := set_own key v (own target) |}
      | Some (DataProperty false) => Raises TypeError
      | Some (AccessorProperty None) => Raises TypeError
      | Some (AccessorProperty (Some f)) => call_setter f v target
      end
  end.

(** A string's characters as one-character strings. *)
Fixpoint characters (s : string) : list value :=
  match s with
  | EmptyString => []
  | String c rest => Str (String c EmptyString) :: characters rest
  end.

(** The own enumerable properties [Object.assign] copies from a source:
    the fields of an object, the elements of an array and the characters of a
    string under their indices in decimal, nothing for [null] (which is
    skipped), a boolean or a number (whose wrappers have none). *)
Definition own_enumerable (source : value) : list (string * value) :=
  match source with
  | Obj fields => fields
  | Arr elements => imap (fun i v => (pretty i, v)) elements
  | Str s => imap (fun i v => (pretty i, v)) (characters s)
  | Null | Bool _ | Number _ => []
  end.

Fixpoint assign_properties (target : object) (props : list (string * value))
    : result object :=
  match props with
  | [] => Returns target
  | (k, v) :: rest =>
      match Set_or_throw target k v with
      | Returns target' => assign_properties target' rest
      | Raises e => Raises e
      end
  end.

(** [Object.assign(target, source)] *)
Definition Object_assign (target : object) (source : value) : result object :=
  assign_properties target (own_enumerable source).

Definition getJSON (obj : value) : string := JSON_stringify obj.

Definition fromJSON (proto : prototype) (json : string) : result object :=
  let object := Object_create proto in
  match JSON_parse json with
  | None => Raises SyntaxError
  | Some jsonToObject => Object_assign object jsonToObject
  end.

End Objects.

Arguments null {function}.
Arguments proto_object {function} props parent.
Arguments DataProperty {function} writable.
Arguments AccessorProperty {function} setter.
Arguments mkObject {function} _ _.
Arguments prototype_of {function} _.
Arguments own {function} _.

(** A key can be assigned as an own data property of an object whose
    prototype is [proto]: the chain has no property of that name, or a
    writable data property. *)
Definition settable {function : Type} (proto : prototype function)
    (key : string) : bool :=
  match lookup_chain function key proto with
  | None | Some (DataProperty true) => true
  | Some (DataProperty false) | Some (AccessorProperty _) => false
  end.

(** No accessor on the chain has a setter. *)
Fixpoint setter_free {function : Type} (proto : prototype function) : bool :=
  match proto with
  | null => true
  | proto_object props parent =>
      forallb (fun kd => match kd.2 with
                         | AccessorProperty (Some _) => false
                         | _ => true
                         end) props
      && setter_free parent
  end.

(** Sample data for the examples below.  [sample_text] is the JSON text
    [{"radius":10}]; [sample_stringify] is what [JSON.stringify] does on
    [sample_object], and [sample_parse] what [JSON.parse] does on three
    texts. *)
Definition quote : string := String (Ascii.ascii_of_nat 34) EmptyString.

Definition sample_text : string :=
  "{" +:+ quote +:+ "radius" +:+ quote +:+ ":10}".

Definition sample_object : value := Obj [("radius", Number 10%float)].

Definition sample_stringify (v : value) : string := sample_text.

Definition sample_parse (text : string) : option value :=
  if String.eqb text sample_text then Some sample_object
  else if String.eqb text "null" then Some Null
  else if String.eqb text "[true,null]" then Some (Arr [Bool true; Null])
  else None.

(** No setter is involved in the samples. *)
Definition no_setter (f : Empty_set) (v : value) (o : object Empty_set)
    : result (object Empty_set) :=
  match f with end.

(** [Circle.prototype] of a class with a constructor and one method, above a
    root object with a method. *)
Definition sample_prototype : prototype Empty_set :=
  proto_object [("constructor", DataProperty true);
                ("getCircumference", DataProperty true)]
    (proto_object [("toString", DataProperty true)] null).

(** A prototype with a read-only property [radius]. *)
Definition frozen_prototype : prototype Empty_set :=
  proto_object [("radius", DataProperty false)] null.

(* ================================================================== *)
(** * Properties *)

(** ** What one call does *)

(** The state [add] leaves when both tests pass. *)
Lemma add_unfold (type value : string) (b : SelectorBuilder) :
  Builder.add type value b =
    if truthy (occurences b !! type)
       && (String.eqb type "element" || String.eqb type "id"
           || String.eqb type "pseudo-element")
    then (b, Throw error2)
    else if indexOf order (Some type) <? indexOf order (current b)
    then (b, Throw error1)
    else (append_selector
            (if String.eqb type "id" then "#" +:+ value
             else if String.eqb type "class" then "." +:+ value
             else if String.eqb type "attr" then "[" +:+ value +:+ "]"
             else if String.eqb type "pseudo-class" then ":" +:+ value
             else if String.eqb type "pseudo-element" then "::" +:+ value
             else value)
            (set_occurence type true (set_current type b)), Normal).
Proof.
  unfold Builder.add, and_then, cond, skip, assign, Builder.displayUniqueError,
    Builder.displayOrderError, throw.
  destruct (truthy (occurences b !! type)); simpl.
  - destruct (String.eqb type "element" || String.eqb type "id"
              || String.eqb type "pseudo-element"); simpl; [reflexivity|].
    destruct (indexOf order (Some type) <? indexOf order (current b)); [reflexivity|].
    repeat (destruct (String.eqb type _); [reflexivity|]). reflexivity.
  - destruct (indexOf order (Some type) <? indexOf order (current b)); [reflexivity|].
    repeat (destruct (String.eqb type _); [reflexivity|]). reflexivity.
Qed.

Lemma call_add (p : part) (value : string) :
  call p value = Builder.add (type_of p) value.
Proof. destruct p; reflexivity. Qed.

Lemma call_unfold (p : part) (value : string) (b : SelectorBuilder) :
  call p value b =
    if truthy (occurences b !! type_of p) && singleton p
    then (b, Throw error2)
    else if rank p <? indexOf order (current b)
    then (b, Throw error1)
    else ({| selector := selector b +:+ spec_fragment p value;
             combinator := combinator b;
             current := Some (type_of p);
             occurences := <[type_of p := true]> (occurences b) |}, Normal).
Proof.
  rewrite call_add, add_unfold. unfold rank.
  destruct p; simpl; reflexivity.
Qed.

Lemma rank_spec_position (p : part) : rank p = spec_position p.
Proof. destruct p; reflexivity. Qed.

Lemma type_of_inj (p q : part) : type_of p = type_of q -> p = q.
Proof. destruct p, q; simpl; intros H; try reflexivity; discriminate H. Qed.

Lemma rank_inj (p q : part) : rank p = rank q -> p = q.
Proof. rewrite !rank_spec_position. destruct p, q; simpl; intros H; try reflexivity; discriminate H. Qed.

(** A flag once set stays set: [add] only ever writes [true]. *)
Lemma call_keeps_flag (p : part) (v : string) (b b' : SelectorBuilder) (t : string) :
  call p v b = (b', Normal) ->
  truthy (occurences b !! t) = true -> truthy (occurences b' !! t) = true.
Proof.
  rewrite call_unfold.
  destruct (truthy (occurences b !! type_of p) && singleton p); [discriminate|].
  destruct (rank p <? indexOf order (current b)); [discriminate|].
  intros [= <-] Ht. simpl.
  destruct (decide (type_of p = t)) as [->|Hne].
  - rewrite lookup_insert_eq. reflexivity.
  - rewrite lookup_insert_ne by exact Hne. exact Ht.
Qed.

Lemma call_sets_flag (p : part) (v : string) (b b' : SelectorBuilder) :
  call p v b = (b', Normal) -> truthy (occurences b' !! type_of p) = true.
Proof.
  rewrite call_unfold.
  destruct (truthy (occurences b !! type_of p) && singleton p); [discriminate|].
  destruct (rank p <? indexOf order (current b)); [discriminate|].
  intros [= <-]. simpl. rewrite lookup_insert_eq. reflexivity.
Qed.

Lemma chain_keeps_flag (calls : list (part * string)) (b b' : SelectorBuilder) (t : string) :
  chain calls b = (b', Normal) ->
  truthy (occurences b !! t) = true -> truthy (occurences b' !! t) = true.
Proof.
  revert b. induction calls as [|[p v] rest IH]; intros b.
  - intros [= <-]. auto.
  - simpl. unfold and_then. destruct (call p v b) as [b1 [|msg]] eqn:E; [|discriminate].
    intros Hrest Ht. apply (IH b1 Hrest). eapply call_keeps_flag; eauto.
Qed.

(** ** The claims *)

(** C2. Once a fragment of category element, id or pseudo-element has been
    appended to a builder, then, whatever else has been appended since, a
    second fragment of that category is refused with the error whose message
    is "Element, id and pseudo-element should not occur more then one time
    inside the selector", and the builder is left as it was. *)
Theorem duplicate_singleton_rejected
    (b b1 b2 : SelectorBuilder) (p : part) (v v' : string)
    (calls : list (part * string)) :
  singleton p = true ->
  call p v b = (b1, Normal) ->
  chain calls b1 = (b2, Normal) ->
  call p v' b2 =
    (b2, Throw "Element, id and pseudo-element should not occur more then one time inside the selector").
Proof.
  intros Hs H1 H2.
  pose proof (chain_keeps_flag _ _ _ _ H2 (call_sets_flag _ _ _ _ H1)) as Hf.
  rewrite call_unfold, Hf, Hs. reflexivity.
Qed.

Lemma duplicate_singleton_rejected_witness :
  call Id "b" (fst (chain [(Id, "a"); (Class, "c")] new_SelectorBuilder)) =
    (fst (chain [(Id, "a"); (Class, "c")] new_SelectorBuilder),
     Throw "Element, id and pseudo-element should not occur more then one time inside the selector").
Proof.
  apply (duplicate_singleton_rejected new_SelectorBuilder
           (fst (call Id "a" new_SelectorBuilder)) _ Id "a" "b" [(Class, "c")]).
  - reflexivity.
  - vm_compute. reflexivity.
  - vm_compute. reflexivity.
Defined.

(** C8. When an append breaks both rules at once (its category is one of
    element, id, pseudo-element and is already flagged, and its position is
    strictly before that of the last appended category), the error raised is
    the duplicate one: that test comes first in [add]. *)
Theorem duplicate_checked_before_order
    (b : SelectorBuilder) (p : part) (v : string) :
  singleton p = true ->
  truthy (occurences b !! type_of p) = true ->
  rank p < indexOf order (current b) ->
  call p v b = (b, Throw error2) /\ snd (call p v b) <> Throw error1.
Proof.
  intros Hs Hf _. rewrite call_unfold, Hf, Hs. simpl.
  split; [reflexivity|]. discriminate.
Qed.

Lemma duplicate_checked_before_order_witness :
  let b := fst (chain [(Id, "a"); (Class, "c")] new_SelectorBuilder) in
  call Id "b" b = (b, Throw error2) /\ snd (call Id "b" b) <> Throw error1.
Proof.
  apply (duplicate_checked_before_order
           (fst (chain [(Id, "a"); (Class, "c")] new_SelectorBuilder)) Id "b").
  - reflexivity.
  - vm_compute. reflexivity.
  - vm_compute. reflexivity.
Defined.

(** C3 as stated fails: after [id] then [class], a second [id] is at a
    position strictly before that of the last appended category, and the
    error raised is the duplicate one, not the ordering one. *)
Lemma order_error_counterexample :
  let b := fst (chain [(Id, "a"); (Class, "c")] new_SelectorBuilder) in
  indexOf order (Some "id") < indexOf order (current b)
  /\ Builder.add "id" "b" b = (b, Throw error2)
  /\ snd (Builder.add "id" "b" b) <>
       Throw "Selector parts should be arranged in the following order: element, id, class, attribute, pseudo-class, pseudo-element".
Proof.
  vm_compute. split; [reflexivity|]. split; [reflexivity|]. discriminate.
Qed.

(** C3, amended. When the duplicate test does not fire (the type is not an
    already flagged element, id or pseudo-element), appending a type whose
    position in [order] is strictly before that of the last appended one
    raises the error whose message is "Selector parts should be arranged in
    the following order: element, id, class, attribute, pseudo-class,
    pseudo-element", and the builder is left as it was. *)
Theorem out_of_order_rejected (b : SelectorBuilder) (type value : string) :
  truthy (occurences b !! type)
    && (String.eqb type "element" || String.eqb type "id"
        || String.eqb type "pseudo-element") = false ->
  indexOf order (Some type) < indexOf order (current b) ->
  Builder.add type value b =
    (b, Throw "Selector parts should be arranged in the following order: element, id, class, attribute, pseudo-class, pseudo-element").
Proof.
  intros H1 H2. rewrite add_unfold, H1.
  apply Z.ltb_lt in H2. rewrite H2. reflexivity.
Qed.

(** The spec's example for C3: [id], then [class], then [element]. *)
Lemma out_of_order_rejected_witness :
  let b := fst (chain [(Id, "a"); (Class, "c")] new_SelectorBuilder) in
  Builder.element "div" b =
    (b, Throw "Selector parts should be arranged in the following order: element, id, class, attribute, pseudo-class, pseudo-element").
Proof.
  apply (out_of_order_rejected
           (fst (chain [(Id, "a"); (Class, "c")] new_SelectorBuilder)) "element" "div").
  - vm_compute. reflexivity.
  - vm_compute. reflexivity.
Defined.

(** C10. A call of [add] that throws, with either message, leaves the
    selector text, the flags and the last category (all fields) as they
    were before the call. *)
Theorem failed_add_changes_nothing
    (b b' : SelectorBuilder) (type value msg : string) :
  Builder.add type value b = (b', Throw msg) ->
  b' = b /\ (msg = error1 \/ msg = error2).
Proof.
  rewrite add_unfold.
  destruct (truthy (occurences b !! type) && _).
  - intros [= <- <-]. auto.
  - destruct (indexOf order (Some type) <? indexOf order (current b)).
    + intros [= <- <-]. auto.
    + discriminate.
Qed.

Lemma failed_add_changes_nothing_witness :
  let b := fst (chain [(Id, "a"); (Class, "c")] new_SelectorBuilder) in
  Builder.add "element" "div" b = (b, Throw error1)
  /\ (b = b /\ (error1 = error1 \/ error1 = error2)).
Proof.
  split; [vm_compute; reflexivity|].
  apply (failed_add_changes_nothing
           (fst (chain [(Id, "a"); (Class, "c")] new_SelectorBuilder)) _ "element" "div" error1).
  vm_compute. reflexivity.
Defined.

(** C7. On a builder to which nothing has been appended yet ([current] is
    still [undefined], as [new SelectorBuilder()] leaves it), an append of
    any type and value does not raise the ordering error. *)
Theorem first_append_passes_order_check
    (b : SelectorBuilder) (type value : string) :
  current b = undefined ->
  snd (Builder.add type value b) <> Throw error1.
Proof.
  intros Hc. rewrite add_unfold, Hc.
  destruct (truthy (occurences b !! type) && _); [simpl; discriminate|].
  assert (H : (indexOf order (Some type) <? indexOf order undefined) = false).
  { apply Z.ltb_ge. unfold indexOf, order. simpl.
    repeat (case_bool_decide; [lia|]). lia. }
  rewrite H. simpl. discriminate.
Qed.

Lemma first_append_passes_order_check_witness :
  snd (Builder.add "pseudo-element" "after" new_SelectorBuilder) <> Throw error1.
Proof.
  apply (first_append_passes_order_check new_SelectorBuilder "pseudo-element" "after").
  reflexivity.
Defined.

(** C4. For all builders [A] and [B] and every string [c], [combine(A, c, B)]
    does not throw and its text is [A.stringify() + " " + c + " " +
    B.stringify()], both through the facade (on a fresh builder) and as a
    method of any builder; with [c = "+"] the text is [A.stringify() + " + "
    + B.stringify()]. *)
Theorem combine_stringify (this A B : SelectorBuilder) (c : string) :
  (snd (cssSelectorBuilder.combine A c B) = Normal
   /\ Builder.stringify (fst (cssSelectorBuilder.combine A c B)) =
        Builder.stringify A +:+ " " +:+ c +:+ " " +:+ Builder.stringify B)
  /\ (snd (Builder.combine A c B this) = Normal
      /\ Builder.stringify (fst (Builder.combine A c B this)) =
           Builder.stringify A +:+ " " +:+ c +:+ " " +:+ Builder.stringify B)
  /\ Builder.stringify (fst (cssSelectorBuilder.combine A "+" B)) =
       Builder.stringify A +:+ " + " +:+ Builder.stringify B.
Proof. repeat split. Qed.

(** The nested example of the source's header comment. *)
Example header_comment_combine :
  let built calls := fst (chain calls new_SelectorBuilder) in
  Builder.stringify
    (fst (cssSelectorBuilder.combine
            (built [(Element, "div"); (Id, "main"); (Class, "container");
                    (Class, "draggable")])
            "+"
            (fst (cssSelectorBuilder.combine
                    (built [(Element, "table"); (Id, "data")])
                    "~"
                    (fst (cssSelectorBuilder.combine
                            (built [(Element, "tr"); (PseudoClass, "nth-of-type(even)")])
                            " "
                            (built [(Element, "td"); (PseudoClass, "nth-of-type(even)")])))))))
  = "div#main.container.draggable + table#data ~ tr:nth-of-type(even)   td:nth-of-type(even)".
Proof. vm_compute. reflexivity. Qed.

(** C6. From any builder, any number of [attr] calls in a row, and any
    number of [class] calls in a row, never ends in the duplicate error; a
    single call raises it exactly when its category is element, id or
    pseudo-element and is already flagged. *)
Theorem repeatable_never_duplicate_error
    (b : SelectorBuilder) (values : list string) (p : part) (v : string) :
  snd (chain (map (pair Attr) values) b) <> Throw error2
  /\ snd (chain (map (pair Class) values) b) <> Throw error2
  /\ (snd (call p v b) = Throw error2 <->
        singleton p = true /\ truthy (occurences b !! type_of p) = true).
Proof.
  assert (Hone : forall q w b0, singleton q = false -> snd (call q w b0) <> Throw error2).
  { intros q w b0 Hq. rewrite call_unfold, Hq, andb_false_r.
    destruct (rank q <? indexOf order (current b0)); simpl; discriminate. }
  assert (Hall : forall q, singleton q = false ->
            forall b0, snd (chain (map (pair q) values) b0) <> Throw error2).
  { intros q Hq. induction values as [|w ws IH]; intros b0; simpl; [discriminate|].
    unfold and_then. pose proof (Hone q w b0 Hq) as H1.
    destruct (call q w b0) as [b1 [|msg]]; [apply IH | exact H1]. }
  split; [apply Hall; reflexivity|]. split; [apply Hall; reflexivity|].
  rewrite call_unfold.
  destruct (truthy (occurences b !! type_of p)), (singleton p); simpl.
  - split; [intros _; split; reflexivity | reflexivity].
  - destruct (rank p <? indexOf order (current b)); simpl;
      (split; [discriminate | intros [? _]; discriminate]).
  - destruct (rank p <? indexOf order (current b)); simpl;
      (split; [discriminate | intros [_ ?]; discriminate]).
  - destruct (rank p <? indexOf order (current b)); simpl;
      (split; [discriminate | intros [? _]; discriminate]).
Qed.

(** ** Whole chains *)

Lemma string_app_assoc (a b c : string) : (a +:+ b) +:+ c = a +:+ (b +:+ c).
Proof.
  induction a as [|x a IH]; [reflexivity|].
  change (String x ((a +:+ b) +:+ c) = String x (a +:+ (b +:+ c))).
  rewrite IH. reflexivity.
Qed.

Lemma string_app_empty_r (a : string) : a +:+ "" = a.
Proof.
  induction a as [|x a IH]; [reflexivity|].
  change (String x (a +:+ "") = String x a).
  rewrite IH. reflexivity.
Qed.

(** The text after an accepted chain: the text before, then each fragment. *)
Lemma chain_text (calls : list (part * string)) (b b' : SelectorBuilder) :
  chain calls b = (b', Normal) ->
  selector b' = selector b +:+ concat_fragments calls.
Proof.
  revert b. induction calls as [|[p v] rest IH]; intros b.
  - intros [= <-]. simpl. symmetry. apply string_app_empty_r.
  - simpl. unfold and_then. destruct (call p v b) as [b1 [|msg]] eqn:E; [|discriminate].
    intros Hrest. rewrite (IH _ Hrest).
    rewrite call_unfold in E.
    destruct (truthy (occurences b !! type_of p) && singleton p); [discriminate|].
    destruct (rank p <? indexOf order (current b)); [discriminate|].
    injection E as <-. simpl. apply string_app_assoc.
Qed.

Lemma indexOf_current (prev : option part) :
  indexOf order (type_of <$> prev) = match prev with None => -1 | Some q => rank q end.
Proof. destruct prev as [q|]; reflexivity. Qed.

(** One accepted call keeps the flags consistent, with the part just
    appended as the last one. *)
Lemma call_consistent (b : SelectorBuilder) (prev : option part) (p : part) (v : string) :
  consistent b prev -> step_ok prev p = true ->
  exists b', call p v b = (b', Normal) /\ consistent b' (Some p).
Proof.
  intros (Hc & Hflag & Hprev) Hstep.
  rewrite call_unfold, Hc, indexOf_current.
  assert (H1 : truthy (occurences b !! type_of p) && singleton p = false).
  { destruct (truthy (occurences b !! type_of p)) eqn:Hf; [|reflexivity].
    destruct (Hflag p Hf) as (q & -> & Hle). simpl in Hstep. simpl.
    apply orb_true_iff in Hstep as [Hlt | Htie].
    - apply Z.ltb_lt in Hlt. lia.
    - apply andb_true_iff in Htie as [_ Hns]. apply negb_true_iff in Hns. exact Hns. }
  assert (H2 : (rank p <? match prev with None => -1 | Some q => rank q end) = false).
  { apply Z.ltb_ge. destruct prev as [q|].
    - simpl in Hstep. apply orb_true_iff in Hstep as [Hlt | Htie].
      + apply Z.ltb_lt in Hlt. lia.
      + apply andb_true_iff in Htie as [Heq _]. apply bool_decide_eq_true in Heq.
        subst q. lia.
    - rewrite rank_spec_position. destruct p; simpl; lia. }
  rewrite H1, H2. eexists. split; [reflexivity|].
  split; [reflexivity|]. split.
  - intros p' Hp'. simpl in Hp'. exists p. split; [reflexivity|].
    destruct (decide (p = p')) as [->|Hne]; [lia|].
    rewrite lookup_insert_ne in Hp' by (intros E; apply Hne, type_of_inj, E).
    destruct (Hflag p' Hp') as (q & -> & Hle).
    simpl in Hstep. apply orb_true_iff in Hstep as [Hlt | Htie].
    + apply Z.ltb_lt in Hlt. lia.
    + apply andb_true_iff in Htie as [Heq _]. apply bool_decide_eq_true in Heq.
      subst q. exact Hle.
  - intros q [= <-]. simpl. rewrite lookup_insert_eq. reflexivity.
Qed.

(** One refused call: the step is not allowed after [prev]. *)
Lemma call_refused (b : SelectorBuilder) (prev : option part) (p : part) (v : string) :
  consistent b prev -> step_ok prev p = false ->
  exists msg, call p v b = (b, Throw msg).
Proof.
  intros (Hc & Hflag & Hprev) Hstep.
  rewrite call_unfold, Hc, indexOf_current.
  destruct prev as [q|]; [|discriminate]. simpl in Hstep.
  apply orb_false_iff in Hstep as [Hlt Htie]. apply Z.ltb_ge in Hlt.
  destruct (truthy (occurences b !! type_of p) && singleton p) eqn:H1; [eauto|].
  destruct (rank p <? rank q) eqn:H2; [eauto|]. exfalso.
  apply Z.ltb_ge in H2. assert (q = p) as -> by (apply rank_inj; lia).
  rewrite (Hprev p eq_refl) in H1. simpl in H1.
  rewrite bool_decide_eq_true_2 in Htie by reflexivity. simpl in Htie.
  rewrite H1 in Htie. discriminate.
Qed.

(** A chain run on a consistent builder is accepted exactly when every step
    is allowed after the one before it. *)
Lemma chain_accepted_iff (calls : list (part * string)) (b : SelectorBuilder)
    (prev : option part) :
  consistent b prev ->
  snd (chain calls b) = Normal <-> chain_ok prev (map fst calls) = true.
Proof.
  revert b prev. induction calls as [|[p v] rest IH]; intros b prev Hb.
  - simpl. split; reflexivity.
  - simpl. unfold and_then. destruct (step_ok prev p) eqn:Hstep.
    + destruct (call_consistent b prev p v Hb Hstep) as (b' & -> & Hb').
      simpl. apply IH. exact Hb'.
    + destruct (call_refused b prev p v Hb Hstep) as (msg & ->).
      simpl. split; discriminate.
Qed.

Lemma new_consistent : consistent new_SelectorBuilder None.
Proof.
  split; [reflexivity|]. split.
  - intros p Hp. destruct p; vm_compute in Hp; discriminate.
  - intros q [=].
Qed.

Lemma spec_step_ok_step_ok (prev : option part) (p : part) :
  spec_step_ok prev p = true -> step_ok prev p = true.
Proof.
  destruct prev as [q|]; [|reflexivity]. simpl. rewrite !rank_spec_position.
  intros H. apply orb_true_iff in H as [H | H]; apply orb_true_iff; [left; exact H|].
  right. apply andb_true_iff in H as [H1 H2]. rewrite H1. simpl.
  destruct p; simpl in *; try discriminate; reflexivity.
Qed.

Lemma spec_chain_ok_chain_ok (ps : list part) (prev : option part) :
  spec_chain_ok prev ps = true -> chain_ok prev ps = true.
Proof.
  revert prev. induction ps as [|p ps IH]; intros prev; [reflexivity|].
  simpl. intros H. apply andb_true_iff in H as [H1 H2].
  rewrite (spec_step_ok_step_ok _ _ H1), (IH _ H2). reflexivity.
Qed.

(** C5. A sequence of appends on a fresh builder that respects the fixed
    order, with [class] and [attr] repeatable, is accepted, and [stringify()]
    then returns the formatted fragments one after the other with nothing
    between them; [id('main').class('container').class('editable')] gives
    ["#main.container.editable"]. *)
Theorem valid_chain_stringify (calls : list (part * string)) :
  spec_chain_ok None (map fst calls) = true ->
  snd (chain calls new_SelectorBuilder) = Normal
  /\ Builder.stringify (fst (chain calls new_SelectorBuilder)) = concat_fragments calls
  /\ Builder.stringify
       (fst (Builder.class "editable"
               (fst (Builder.class "container" (fst (cssSelectorBuilder.id "main"))))))
     = "#main.container.editable".
Proof.
  intros Hok. apply spec_chain_ok_chain_ok in Hok.
  apply (chain_accepted_iff calls new_SelectorBuilder None new_consistent) in Hok.
  split; [exact Hok|]. split; [|reflexivity].
  destruct (chain calls new_SelectorBuilder) as [b' c] eqn:E. simpl in Hok. subst c.
  unfold Builder.stringify. simpl. rewrite (chain_text _ _ _ E). reflexivity.
Qed.

Lemma valid_chain_stringify_witness :
  let href := "href$=" +:+ quote +:+ ".png" +:+ quote in
  let calls := [(Element, "a"); (Attr, href); (PseudoClass, "focus")] in
  spec_chain_ok None (map fst calls) = true
  /\ (snd (chain calls new_SelectorBuilder) = Normal
      /\ Builder.stringify (fst (chain calls new_SelectorBuilder)) =
           "a[" +:+ href +:+ "]:focus"
      /\ Builder.stringify
           (fst (Builder.class "editable"
                   (fst (Builder.class "container" (fst (cssSelectorBuilder.id "main"))))))
         = "#main.container.editable").
Proof.
  split; [reflexivity|].
  apply (valid_chain_stringify
           [(Element, "a"); (Attr, "href$=" +:+ quote +:+ ".png" +:+ quote);
            (PseudoClass, "focus")]).
  reflexivity.
Defined.

(** C1 as stated fails: [pseudoClass] twice in a row is a tie outside class
    and attribute, and the code accepts it. *)
Lemma tie_counterexample :
  let calls := [(PseudoClass, "hover"); (PseudoClass, "focus")] in
  spec_chain_ok None (map fst calls) = false
  /\ snd (chain calls new_SelectorBuilder) = Normal
  /\ Builder.stringify (fst (chain calls new_SelectorBuilder)) = ":hover:focus".
Proof. vm_compute. repeat split. Qed.

(** After an accepted append of [q], on any builder at all, whatever chain
    is accepted next is in order after [q]. *)
Lemma chain_accepted_ordered (calls : list (part * string)) (b : SelectorBuilder)
    (q : part) :
  current b = Some (type_of q) ->
  truthy (occurences b !! type_of q) = true ->
  snd (chain calls b) = Normal ->
  chain_ok (Some q) (map fst calls) = true.
Proof.
  revert b q. induction calls as [|[p v] rest IH]; intros b q Hc Hf; [reflexivity|].
  simpl. unfold and_then. rewrite call_unfold, Hc.
  change (indexOf order (Some (type_of q))) with (rank q).
  destruct (truthy (occurences b !! type_of p) && singleton p) eqn:H1; [discriminate|].
  destruct (rank p <? rank q) eqn:H2; [discriminate|].
  intros Hrest. apply Z.ltb_ge in H2.
  assert (Hok : chain_ok (Some p) (map fst rest) = true).
  { apply (IH _ p) in Hrest; [exact Hrest | reflexivity|].
    simpl. rewrite lookup_insert_eq. reflexivity. }
  rewrite Hok, andb_true_r.
  destruct (decide (q = p)) as [->|Hne].
  - rewrite Hf in H1. simpl in H1. rewrite H1, bool_decide_eq_true_2 by reflexivity.
    apply orb_true_r.
  - apply orb_true_iff. left. apply Z.ltb_lt.
    assert (rank q <> rank p) by (intros E; apply Hne, rank_inj, E). lia.
Qed.

(** C1, amended. On every builder, the appends of a chain that is accepted
    come in non-decreasing category order under element < id < class <
    attribute < pseudo-class < pseudo-element, where a category follows
    itself only if it is class, attribute or pseudo-class: element, id or
    pseudo-element twice in a row is refused.  On a fresh builder the
    accepted chains are exactly the chains in such an order. *)
Theorem accepted_iff_ordered (calls : list (part * string)) (b : SelectorBuilder) :
  (snd (chain calls b) = Normal ->
   match map fst calls with
   | [] => True
   | p :: ps => chain_ok (Some p) ps = true
   end)
  /\ (snd (chain calls new_SelectorBuilder) = Normal <->
      chain_ok None (map fst calls) = true)
  /\ (forall q p : part,
        step_ok (Some q) p = true <->
        spec_position q < spec_position p
        \/ (q = p /\ (p = Class \/ p = Attr \/ p = PseudoClass))).
Proof.
  split; [|split; [apply chain_accepted_iff, new_consistent|]].
  - destruct calls as [|[p v] rest]; [reflexivity|]. simpl. unfold and_then.
    destruct (call p v b) as [b1 [|msg]] eqn:E; [|discriminate].
    apply (chain_accepted_ordered rest b1 p).
    + rewrite call_unfold in E.
      destruct (truthy (occurences b !! type_of p) && singleton p); [discriminate|].
      destruct (rank p <? indexOf order (current b)); [discriminate|].
      injection E as <-. reflexivity.
    + exact (call_sets_flag _ _ _ _ E).
  - intros q p. simpl. rewrite !rank_spec_position, orb_true_iff, andb_true_iff,
      Z.ltb_lt, bool_decide_eq_true, negb_true_iff.
    split; (intros [H | [H1 H2]]; [left; exact H | right; split; [exact H1|]]).
    + destruct p; simpl in H2; try discriminate; auto.
    + destruct H2 as [-> | [-> | ->]]; reflexivity.
Qed.

(** ** getJSON and fromJSON *)

Section ObjectLemmas.

Context {function : Type}.
Variable call_setter : function -> value -> object function -> result (object function).

Lemma get_property_None {A : Type} (key : string) (props : list (string * A)) :
  get_property key props = None <-> key ∉ props.*1.
Proof.
  induction props as [|[k a] rest IH]; simpl.
  - split; [intros _; apply not_elem_of_nil | reflexivity].
  - rewrite not_elem_of_cons. destruct (String.eqb_spec k key) as [->|Hne].
    + split; [discriminate | intros [H _]; contradiction].
    + rewrite IH. split; [intros H; split; [congruence | exact H] | intros [_ H]; exact H].
Qed.

Lemma set_own_fresh (key : string) (v : value) (fields : list (string * value)) :
  key ∉ fields.*1 -> set_own key v fields = fields ++ [(key, v)].
Proof.
  induction fields as [|[k w] rest IH]; simpl; [reflexivity|].
  rewrite not_elem_of_cons. intros [Hne Hrest].
  destruct (String.eqb_spec k key) as [->|_]; [contradiction|].
  rewrite (IH Hrest). reflexivity.
Qed.

(** Assigning fresh, settable keys to an object appends them in order. *)
Lemma assign_properties_fresh (proto : prototype function)
    (props acc : list (string * value)) :
  NoDup (acc ++ props).*1 ->
  forallb (fun kv => settable proto kv.1) props = true ->
  assign_properties function call_setter (mkObject proto acc) props =
    Returns (mkObject proto (acc ++ props)).
Proof.
  revert acc. induction props as [|[k v] rest IH]; intros acc Hnd Hset; simpl.
  - rewrite app_nil_r. reflexivity.
  - simpl in Hset. apply andb_true_iff in Hset as [Hk Hrest].
    assert (Hfresh : k ∉ acc.*1).
    { rewrite fmap_app in Hnd. apply NoDup_app in Hnd as (_ & Hdisj & _).
      intros Hin. apply (Hdisj k Hin). simpl. apply elem_of_cons. left. reflexivity. }
    unfold Set_or_throw. simpl.
    rewrite (proj2 (get_property_None k acc) Hfresh).
    unfold settable in Hk.
    assert (Hstep :
              match lookup_chain function k proto with
              | None | Some (DataProperty true) =>
                  Returns (mkObject proto (set_own k v acc))
              | Some (DataProperty false) => Raises TypeError
              | Some (AccessorProperty None) => Raises TypeError
              | Some (AccessorProperty (Some f)) => call_setter f v (mkObject proto acc)
              end = Returns (mkObject proto (set_own k v acc))).
    { destruct (lookup_chain function k proto) as [[[|]|s]|];
        try discriminate; reflexivity. }
    rewrite Hstep, (set_own_fresh k v acc Hfresh).
    rewrite IH; [|rewrite <- app_assoc; exact Hnd | exact Hrest].
    rewrite <- app_assoc. reflexivity.
Qed.

End ObjectLemmas.

(** Whatever [JSON.parse] returned, if its own enumerable keys are distinct
    and settable on [proto]'s chain, [fromJSON] returns an object with
    prototype [proto] and exactly those properties. *)
Lemma fromJSON_returns {function : Type}
    (parse : string -> option value)
    (call_setter : function -> value -> object function -> result (object function))
    (proto : prototype function) (json : string) (parsed : value) :
  parse json = Some parsed ->
  NoDup (own_enumerable parsed).*1 ->
  forallb (fun kv => settable proto kv.1) (own_enumerable parsed) = true ->
  fromJSON function parse call_setter proto json =
    Returns (mkObject proto (own_enumerable parsed)).
Proof.
  intros Hp Hnd Hset. unfold fromJSON, Object_assign, Object_create. rewrite Hp.
  apply (assign_properties_fresh call_setter proto (own_enumerable parsed) []);
    assumption.
Qed.

(** C9 as stated fails: with a prototype that has a read-only property
    [radius], the round trip of [{"radius":10}] throws a TypeError instead of
    returning an object with that field. *)
Lemma roundtrip_counterexample :
  sample_parse (getJSON sample_stringify sample_object) = Some sample_object
  /\ fromJSON Empty_set sample_parse no_setter frozen_prototype
       (getJSON sample_stringify sample_object) = Raises TypeError.
Proof. split; reflexivity. Qed.

(** C9, amended. Let [obj] be a plain object with distinct keys that
    [JSON.parse] gives back from its [JSON.stringify] text, and [proto] a
    prototype on whose chain no key of [obj] names a read-only property or an
    accessor.  Then [getJSON(obj)] is the [JSON.stringify] text of [obj], and
    [fromJSON(proto, getJSON(obj))] returns an object whose prototype is
    [proto] and whose own fields are those of [obj]. *)
Theorem fromJSON_getJSON_roundtrip {function : Type}
    (stringify : value -> string) (parse : string -> option value)
    (call_setter : function -> value -> object function -> result (object function))
    (proto : prototype function) (fields : list (string * value)) :
  NoDup fields.*1 ->
  parse (stringify (Obj fields)) = Some (Obj fields) ->
  forallb (fun kv => settable proto kv.1) fields = true ->
  getJSON stringify (Obj fields) = stringify (Obj fields)
  /\ fromJSON function parse call_setter proto (getJSON stringify (Obj fields)) =
       Returns {| prototype_of := proto; own := fields |}.
Proof.
  intros Hnd Hrt Hset. split; [reflexivity|].
  unfold getJSON. apply (fromJSON_returns parse call_setter proto _ (Obj fields)); assumption.
Qed.

Lemma fromJSON_getJSON_roundtrip_witness :
  getJSON sample_stringify sample_object = sample_text
  /\ fromJSON Empty_set sample_parse no_setter sample_prototype
       (getJSON sample_stringify sample_object) =
     Returns {| prototype_of := sample_prototype;
                own := [("radius", Number 10%float)] |}.
Proof.
  apply (fromJSON_getJSON_roundtrip sample_stringify sample_parse no_setter
           sample_prototype [("radius", Number 10%float)]).
  - apply NoDup_singleton.
  - reflexivity.
  - reflexivity.
Defined.

(* ================================================================== *)
(** * Further properties of the builder *)

Lemma combine_consistent (A B this : SelectorBuilder) (c : string) (prev : option part) :
  consistent this prev ->
  exists this', Builder.combine A c B this = (this', Normal) /\ consistent this' prev.
Proof. intros H. eexists. split; [reflexivity | exact H]. Qed.

(** X1. Appends and combines in any mix, on a builder whose flags are
    consistent with its last part: the whole sequence is accepted exactly
    when the appended parts are in order (a [combine] never throws and does
    not reset what was appended), and then the flags are consistent again,
    with the last part appended. *)
Theorem operations_accepted_iff (ops : list operation) (b : SelectorBuilder)
    (prev : option part) :
  consistent b prev ->
  (snd (perform_all ops b) = Normal <-> chain_ok prev (appended ops) = true)
  /\ (snd (perform_all ops b) = Normal ->
      consistent (fst (perform_all ops b)) (last_part prev ops)).
Proof.
  revert b prev. induction ops as [|o rest IH]; intros b prev Hb.
  - simpl. split; [split; reflexivity | intros _; exact Hb].
  - destruct o as [p v | A c B]; simpl; unfold and_then.
    + destruct (step_ok prev p) eqn:Hstep.
      * destruct (call_consistent b prev p v Hb Hstep) as (b' & -> & Hb').
        destruct (IH b' (Some p) Hb') as [IH1 IH2]. simpl. split; [exact IH1|].
        exact IH2.
      * destruct (call_refused b prev p v Hb Hstep) as (msg & ->).
        simpl. split; [split; discriminate | discriminate].
    + destruct (combine_consistent A B b c prev Hb) as (b' & -> & Hb').
      apply IH. exact Hb'.
Qed.

Lemma operations_accepted_iff_witness :
  let ops := [Append Element "div"; Combine new_SelectorBuilder "+" new_SelectorBuilder;
              Append Class "x"; Append Class "y"] in
  (snd (perform_all ops new_SelectorBuilder) = Normal <->
   chain_ok None (appended ops) = true)
  /\ (snd (perform_all ops new_SelectorBuilder) = Normal ->
      consistent (fst (perform_all ops new_SelectorBuilder)) (Some Class)).
Proof.
  apply (operations_accepted_iff
           [Append Element "div"; Combine new_SelectorBuilder "+" new_SelectorBuilder;
            Append Class "x"; Append Class "y"] new_SelectorBuilder None).
  exact new_consistent.
Defined.

(** X2. An accepted chain, on any builder, appends exactly its formatted
    fragments to the text that was there and leaves [combinator] alone. *)
Theorem accepted_chain_appends (calls : list (part * string)) (b b' : SelectorBuilder) :
  chain calls b = (b', Normal) ->
  Builder.stringify b' = Builder.stringify b +:+ concat_fragments calls
  /\ combinator b' = combinator b.
Proof.
  intros H. split; [exact (chain_text _ _ _ H)|].
  revert b H. induction calls as [|[p v] rest IH]; intros b.
  - intros [= <-]. reflexivity.
  - simpl. unfold and_then. destruct (call p v b) as [b1 [|msg]] eqn:E; [|discriminate].
    intros Hrest. rewrite (IH _ Hrest). rewrite call_unfold in E.
    destruct (truthy (occurences b !! type_of p) && singleton p); [discriminate|].
    destruct (rank p <? indexOf order (current b)); [discriminate|].
    injection E as <-. reflexivity.
Qed.

Lemma accepted_chain_appends_witness :
  let b := fst (cssSelectorBuilder.combine new_SelectorBuilder ">" new_SelectorBuilder) in
  let calls := [(Element, "td"); (PseudoClass, "hover")] in
  chain calls b = (fst (chain calls b), Normal)
  /\ (Builder.stringify (fst (chain calls b)) = " > td:hover"
      /\ combinator (fst (chain calls b)) = ">").
Proof.
  split; [vm_compute; reflexivity|].
  apply (accepted_chain_appends [(Element, "td"); (PseudoClass, "hover")]
           (fst (cssSelectorBuilder.combine new_SelectorBuilder ">" new_SelectorBuilder))).
  vm_compute. reflexivity.
Defined.

(** X3. Every entry point of the facade returns normally, whatever the value,
    with the formatted fragment as text, its own type as last category and
    its own flag the only one set. *)
Theorem facade_entry_point (p : part) (value : string) :
  snd (facade p value) = Normal
  /\ Builder.stringify (fst (facade p value)) = spec_fragment p value
  /\ current (fst (facade p value)) = Some (type_of p)
  /\ (forall q : part,
        truthy (occurences (fst (facade p value)) !! type_of q) = bool_decide (q = p)).
Proof.
  assert (H : facade p value = call p value new_SelectorBuilder) by (destruct p; reflexivity).
  rewrite H, call_unfold.
  assert (Hf : truthy (occurences new_SelectorBuilder !! type_of p) = false)
    by (destruct p; reflexivity).
  assert (Hr : (rank p <? indexOf order (current new_SelectorBuilder)) = false)
    by (destruct p; reflexivity).
  rewrite Hf, Hr. simpl. repeat split.
  intros q. destruct p, q; reflexivity.
Qed.

(** X4. [combine] does not look at what its arguments were built from and does
    not touch the order state of [this]: a builder made by the facade's
    [combine] accepts any append, whose fragment lands right after the
    combined text. *)
Theorem append_after_combine (A B : SelectorBuilder) (c : string) (p : part) (v : string) :
  snd (call p v (fst (cssSelectorBuilder.combine A c B))) = Normal
  /\ Builder.stringify (fst (call p v (fst (cssSelectorBuilder.combine A c B)))) =
       (Builder.stringify A +:+ " " +:+ c +:+ " " +:+ Builder.stringify B)
       +:+ spec_fragment p v.
Proof.
  rewrite call_unfold.
  assert (Hf : truthy (occurences (fst (cssSelectorBuilder.combine A c B)) !! type_of p) = false)
    by (destruct p; reflexivity).
  assert (Hr : (rank p <? indexOf order (current (fst (cssSelectorBuilder.combine A c B)))) = false)
    by (destruct p; reflexivity).
  rewrite Hf, Hr. simpl. split; reflexivity.
Qed.

(** X5. A chain that throws stops at its first refused call: the calls before
    it were accepted and their effect stays, the refused call changed
    nothing, and the calls after it were not run. *)
Theorem failed_chain_keeps_prefix (calls : list (part * string))
    (b b' : SelectorBuilder) (msg : string) :
  chain calls b = (b', Throw msg) ->
  exists (before : list (part * string)) (p : part) (v : string)
         (after : list (part * string)),
    calls = before ++ (p, v) :: after
    /\ chain before b = (b', Normal)
    /\ call p v b' = (b', Throw msg)
    /\ Builder.stringify b' = Builder.stringify b +:+ concat_fragments before.
Proof.
  revert b. induction calls as [|[p v] rest IH]; intros b; [discriminate|].
  simpl. unfold and_then. destruct (call p v b) as [b1 [|m]] eqn:E.
  - intros Hrest. destruct (IH b1 Hrest) as (before & p' & v' & after & -> & Hb & Hc & _).
    exists ((p, v) :: before), p', v', after.
    assert (Hchain : chain ((p, v) :: before) b = (b', Normal)).
    { simpl. unfold and_then. rewrite E. exact Hb. }
    split; [reflexivity|]. split; [exact Hchain|]. split; [exact Hc|].
    exact (chain_text _ _ _ Hchain).
  - intros [= <- <-]. exists [], p, v, rest.
    assert (b1 = b) as ->.
    { rewrite call_unfold in E.
      destruct (truthy (occurences b !! type_of p) && singleton p); [congruence|].
      destruct (rank p <? indexOf order (current b)); [congruence | discriminate]. }
    split; [reflexivity|]. split; [reflexivity|]. split; [exact E|].
    simpl. symmetry. apply string_app_empty_r.
Qed.

Lemma failed_chain_keeps_prefix_witness :
  let calls := [(Id, "main"); (Class, "x"); (Element, "div"); (Class, "y")] in
  exists before p v after,
    calls = before ++ (p, v) :: after
    /\ chain before new_SelectorBuilder = (fst (chain calls new_SelectorBuilder), Normal)
    /\ call p v (fst (chain calls new_SelectorBuilder)) =
         (fst (chain calls new_SelectorBuilder), Throw error1)
    /\ Builder.stringify (fst (chain calls new_SelectorBuilder)) =
         Builder.stringify new_SelectorBuilder +:+ concat_fragments before.
Proof.
  apply (failed_chain_keeps_prefix
           [(Id, "main"); (Class, "x"); (Element, "div"); (Class, "y")]
           new_SelectorBuilder).
  vm_compute. reflexivity.
Defined.

Lemma chain_ok_after (q : part) (ps : list part) :
  chain_ok (Some q) ps = true ->
  forall p, p ∈ ps -> rank q < rank p \/ (p = q /\ singleton p = false).
Proof.
  revert q. induction ps as [|p0 ps IH]; intros q Hok p Hin.
  - apply elem_of_nil in Hin. contradiction.
  - simpl in Hok. apply andb_true_iff in Hok as [Hstep Hrest].
    assert (H0 : rank q < rank p0 \/ (p0 = q /\ singleton p0 = false)).
    { apply orb_true_iff in Hstep as [H | H].
      - left. apply Z.ltb_lt. exact H.
      - right. apply andb_true_iff in H as [H1 H2].
        apply bool_decide_eq_true in H1. apply negb_true_iff in H2. auto. }
    apply elem_of_cons in Hin as [-> | Hin]; [exact H0|].
    destruct (IH p0 Hrest p Hin) as [Hlt | [-> Hns]].
    + left. destruct H0 as [H0 | [-> _]]; lia.
    + exact H0.
Qed.

(** X6. In a chain accepted from a fresh builder, element, id and
    pseudo-element each occur at most once, wherever they stand. *)
Theorem singleton_at_most_once (calls : list (part * string)) (p : part) :
  snd (chain calls new_SelectorBuilder) = Normal ->
  singleton p = true ->
  (count_occ part_eq_dec (map fst calls) p <= 1)%nat.
Proof.
  intros Hacc Hs.
  apply (chain_accepted_iff calls new_SelectorBuilder None new_consistent) in Hacc.
  revert Hacc. generalize (map fst calls) (@None part). clear calls.
  intros ps. induction ps as [|p0 ps IH]; intros prev Hok; simpl; [lia|].
  simpl in Hok. apply andb_true_iff in Hok as [_ Hrest].
  destruct (part_eq_dec p0 p) as [->|Hne]; [|exact (IH _ Hrest)].
  assert (Hnot : p ∉ ps).
  { intros Hin. destruct (chain_ok_after p ps Hrest p Hin) as [Hlt | [_ Hns]]; [lia|].
    rewrite Hs in Hns. discriminate. }
  rewrite (proj1 (count_occ_not_In part_eq_dec ps p)); [lia|].
  intros Hin. apply Hnot, list_elem_of_In. exact Hin.
Qed.

Lemma singleton_at_most_once_witness :
  (count_occ part_eq_dec
     (map fst [(Element, "div"); (Id, "main"); (Class, "a"); (Class, "b");
               (PseudoElement, "after")]) Id <= 1)%nat.
Proof.
  apply (singleton_at_most_once
           [(Element, "div"); (Id, "main"); (Class, "a"); (Class, "b");
            (PseudoElement, "after")] Id).
  - vm_compute. reflexivity.
  - reflexivity.
Defined.




(** X8. [combine] called as a method of a builder that already has parts
    replaces its text but keeps its order state: any append is then
    accepted or refused exactly as it would have been before the combine,
    with the same message. *)
Theorem combine_keeps_validation (this A B : SelectorBuilder) (c : string)
    (p : part) (v : string) :
  snd (call p v (fst (Builder.combine A c B this))) = snd (call p v this)
  /\ current (fst (Builder.combine A c B this)) = current this
  /\ occurences (fst (Builder.combine A c B this)) = occurences this.
Proof.
  split; [|split; reflexivity].
  rewrite !call_unfold. simpl.
  destruct (truthy (occurences this !! type_of p) && singleton p); [reflexivity|].
  destruct (rank p <? indexOf order (current this)); reflexivity.
Qed.

(** One call on two builders with the same flags and last category ends
    the same way and leaves them with the same flags and last category. *)
Lemma call_same_validation (p : part) (v v' : string) (b b' : SelectorBuilder) :
  current b = current b' -> occurences b = occurences b' ->
  snd (call p v b) = snd (call p v' b')
  /\ current (fst (call p v b)) = current (fst (call p v' b'))
  /\ occurences (fst (call p v b)) = occurences (fst (call p v' b')).
Proof.
  intros Hc Ho. rewrite !call_unfold, Hc, Ho.
  destruct (truthy (occurences b' !! type_of p) && singleton p); [auto|].
  destruct (rank p <? indexOf order (current b')); simpl; auto.
Qed.

(** X9. The values play no part in validation: two chains that call the same
    methods in the same order end the same way, whatever text they append
    and whatever text the builder held. *)
Theorem validation_ignores_values (calls calls' : list (part * string))
    (b b' : SelectorBuilder) :
  map fst calls = map fst calls' ->
  current b = current b' -> occurences b = occurences b' ->
  snd (chain calls b) = snd (chain calls' b').
Proof.
  revert calls' b b'. induction calls as [|[p v] rest IH];
    intros [|[p' v'] rest'] b b' Hparts Hc Ho; try discriminate Hparts; [reflexivity|].
  simpl in Hparts. injection Hparts as <- Hrest.
  destruct (call_same_validation p v v' b b' Hc Ho) as (H1 & H2 & H3).
  simpl. unfold and_then.
  destruct (call p v b) as [b1 [|msg]], (call p v' b') as [b1' [|msg']];
    simpl in *; try discriminate H1; [|exact H1].
  apply IH; assumption.
Qed.

Lemma validation_ignores_values_witness :
  snd (chain [(Id, "a"); (Id, "b")] new_SelectorBuilder) =
  snd (chain [(Id, "main"); (Id, "")]
         (fst (cssSelectorBuilder.combine new_SelectorBuilder "~" new_SelectorBuilder))).
Proof.
  apply (validation_ignores_values [(Id, "a"); (Id, "b")] [(Id, "main"); (Id, "")]
           new_SelectorBuilder
           (fst (cssSelectorBuilder.combine new_SelectorBuilder "~" new_SelectorBuilder)));
    reflexivity.
Defined.

(* ================================================================== *)
(** * Further properties of the object helpers *)

Section ObjectProperties.

Context {function : Type}.
Variable parse : string -> option value.
Variable call_setter : function -> value -> object function -> result (object function).

Lemma setter_free_lookup (proto : prototype function) (key : string) (f : function) :
  setter_free proto = true ->
  lookup_chain function key proto <> Some (AccessorProperty (Some f)).
Proof.
  induction proto as [|props parent IH]; simpl; [discriminate|].
  intros H. apply andb_true_iff in H as [Hprops Hparent].
  destruct (get_property key props) as [d|] eqn:E; [|exact (IH Hparent)].
  intros [= ->]. clear IH Hparent.
  induction props as [|[k d] rest IHp]; simpl in *; [discriminate|].
  apply andb_true_iff in Hprops as [Hd Hrest].
  destruct (String.eqb k key); [injection E as ->; discriminate Hd | exact (IHp Hrest E)].
Qed.

(** With distinct keys and no setter on the chain, assigning stops with a
    TypeError at the first key that is not settable, and otherwise appends
    every property. *)
Lemma assign_properties_setter_free (proto : prototype function)
    (props acc : list (string * value)) :
  setter_free proto = true ->
  NoDup (acc ++ props).*1 ->
  assign_properties function call_setter (mkObject proto acc) props =
    if forallb (fun kv => settable proto kv.1) props
    then Returns (mkObject proto (acc ++ props))
    else Raises TypeError.
Proof.
  intros Hfree. revert acc. induction props as [|[k v] rest IH]; intros acc Hnd; simpl.
  - rewrite app_nil_r. reflexivity.
  - assert (Hfresh : k ∉ acc.*1).
    { rewrite fmap_app in Hnd. apply NoDup_app in Hnd as (_ & Hdisj & _).
      intros Hin. apply (Hdisj k Hin). simpl. apply elem_of_cons. left. reflexivity. }
    unfold Set_or_throw. simpl.
    rewrite (proj2 (get_property_None k acc) Hfresh).
    pose proof (setter_free_lookup proto k) as Hno.
    unfold settable.
    destruct (lookup_chain function k proto) as [[[|]|[f|]]|]; simpl;
      try reflexivity;
      try (rewrite (set_own_fresh k v acc Hfresh), IH
             by (rewrite <- app_assoc; exact Hnd);
           rewrite <- app_assoc; reflexivity).
    exfalso. exact (Hno f Hfree eq_refl).
Qed.

(** X10. On a prototype chain without setters, and for parsed data with distinct
    keys, [fromJSON] throws a SyntaxError when the text does not parse, a
    TypeError when some key names a read-only property or an accessor on the
    chain, and otherwise returns an object with prototype [proto] and the
    parsed properties. *)
Theorem fromJSON_without_setters (proto : prototype function) (json : string) :
  setter_free proto = true ->
  match parse json with
  | None => True
  | Some parsed => NoDup (own_enumerable parsed).*1
  end ->
  fromJSON function parse call_setter proto json =
    match parse json with
    | None => Raises SyntaxError
    | Some parsed =>
        if forallb (fun kv => settable proto kv.1) (own_enumerable parsed)
        then Returns (mkObject proto (own_enumerable parsed))
        else Raises TypeError
    end.
Proof.
  intros Hfree Hnd. unfold fromJSON, Object_assign, Object_create.
  destruct (parse json) as [parsed|]; [|reflexivity].
  apply (assign_properties_setter_free proto (own_enumerable parsed) []); assumption.
Qed.

(** X11. JSON text for [null], a boolean or a number gives, for every prototype,
    an object of that prototype with no own property. *)
Theorem fromJSON_of_primitive (proto : prototype function) (json : string) (parsed : value) :
  parse json = Some parsed ->
  match parsed with Null | Bool _ | Number _ => True | _ => False end ->
  fromJSON function parse call_setter proto json = Returns (mkObject proto []).
Proof.
  intros Hp Hkind. unfold fromJSON, Object_assign, Object_create. rewrite Hp.
  destruct parsed; try contradiction; reflexivity.
Qed.

(** X12. JSON text for an array gives an object whose own properties are the
    elements under their indices ["0"], ["1"], ..., provided none of these
    names a read-only property or an accessor on the chain. *)
Theorem fromJSON_of_array (proto : prototype function) (json : string)
    (elements : list value) :
  parse json = Some (Arr elements) ->
  forallb (fun i => settable proto (pretty i)) (List.seq O (length elements)) = true ->
  fromJSON function parse call_setter proto json =
    Returns (mkObject proto (imap (fun i v => (pretty i, v)) elements)).
Proof.
  intros Hp Hset.
  assert (Hkeys : (imap (fun (i : nat) (v : value) => (pretty i, v)) elements).*1
                  = pretty <$> List.seq O (length elements)).
  { rewrite fmap_imap. apply (imap_seq_0 elements (fun i : nat => pretty i)). }
  unfold fromJSON, Object_assign, Object_create. rewrite Hp. simpl.
  apply (assign_properties_fresh call_setter proto _ []); simpl.
  - rewrite Hkeys. apply (NoDup_fmap_2 _), NoDup_seq.
  - rewrite forallb_forall in Hset. apply forallb_forall. intros [k v] Hin. simpl.
    assert (Hk : k ∈ (imap (fun (i : nat) (v : value) => (pretty i, v)) elements).*1).
    { apply list_elem_of_fmap. exists (k, v). split; [reflexivity|].
      apply list_elem_of_In. exact Hin. }
    rewrite Hkeys in Hk. apply list_elem_of_fmap in Hk as (i & -> & Hi).
    apply Hset, list_elem_of_In. exact Hi.
Qed.

End ObjectProperties.

Lemma fromJSON_without_setters_witness :
  fromJSON Empty_set sample_parse no_setter frozen_prototype sample_text = Raises TypeError
  /\ fromJSON Empty_set sample_parse no_setter sample_prototype sample_text =
       Returns (mkObject sample_prototype [("radius", Number 10%float)]).
Proof.
  split.
  - apply (fromJSON_without_setters sample_parse no_setter frozen_prototype sample_text).
    + reflexivity.
    + apply NoDup_singleton.
  - apply (fromJSON_without_setters sample_parse no_setter sample_prototype sample_text).
    + reflexivity.
    + apply NoDup_singleton.
Defined.

Lemma fromJSON_of_primitive_witness :
  fromJSON Empty_set sample_parse no_setter frozen_prototype "null" =
    Returns (mkObject frozen_prototype []).
Proof.
  apply (fromJSON_of_primitive sample_parse no_setter frozen_prototype "null" Null).
  - reflexivity.
  - exact I.
Defined.

Lemma fromJSON_of_array_witness :
  fromJSON Empty_set sample_parse no_setter sample_prototype "[true,null]" =
    Returns (mkObject sample_prototype [("0", Bool true); ("1", Null)]).
Proof.
  apply (fromJSON_of_array sample_parse no_setter sample_prototype "[true,null]"
           [Bool true; Null]).
  - reflexivity.
  - vm_compute. reflexivity.
Defined.

(* ================================================================== *)
(** * Rectangle *)

(** X13. The area does not depend on which side is called the width: double
    multiplication is commutative, rounding, infinities and NaN included. *)
Theorem getArea_swap (w h : float) :
  getArea (new_Rectangle w h) = getArea (new_Rectangle h w).
Proof.
  unfold getArea, new_Rectangle. simpl.
  apply Prim2SF_inj. rewrite !mul_spec.
  unfold SF64mul, SFmul.
  destruct (Prim2SF w) as [sw|sw| |sw mw ew], (Prim2SF h) as [sh|sh| |sh mh eh];
    try reflexivity; rewrite (xorb_comm sw sh); try reflexivity.
  rewrite (Pos.mul_comm mw mh), (Z.add_comm ew eh). reflexivity.
Qed.
